(** * VideoVistaEdit: the chat editor session and the audio panel

    A shallow embedding of the state logic of two React components,
    [src/components/ChatEditor.js] and
    [src/components/tool-panels/AudioPanel.js].

    Conventions of the embedding.

    - A component's [useState] cells are the fields of a record.  An event
      handler is a function from the record to the record; it reads the
      state of the latest render, as the closure created by that render does.
    - [setTimeout] is modelled by a logical clock [now] (milliseconds) and a
      queue of pending timers, each with its due time and with the values
      its callback closed over.  Time passes only through [elapse]; the
      callbacks that are due run in queue order.
    - JavaScript strings are modelled by [string], a character being read as
      a code point of the range U+0000..U+00FF.  [toLowerCase] and [trim]
      are the ECMAScript functions restricted to that range.
    - JavaScript numbers used as ids and lengths are integers of [Z].
    - [console.log] calls and the scrolling effect leave the state alone and
      are left out. *)

From Stdlib Require Import Bool List Sorted ZArith NArith Lia Ascii String.
Import ListNotations.

Open Scope string_scope.

(** ** The string functions of the host language *)

Module JS.

(** [WhiteSpace] and [LineTerminator] code points below U+0100: TAB, LF, VT,
    FF, CR, SP and NBSP. *)
Definition isWhiteSpace (c : ascii) : bool :=
  let n := N_of_ascii c in
  ((9 <=? n) && (n <=? 13) || (n =? 32) || (n =? 160))%N.

(** [String.prototype.trimStart]. *)
Fixpoint trimStart (s : string) : string :=
  match s with
  | EmptyString => EmptyString
  | String c s' => if isWhiteSpace c then trimStart s' else s
  end.

(** [String.prototype.trimEnd]. *)
Fixpoint trimEnd (s : string) : string :=
  match s with
  | EmptyString => EmptyString
  | String c s' =>
      match trimEnd s' with
      | EmptyString => if isWhiteSpace c then EmptyString else String c EmptyString
      | t => String c t
      end
  end.

(** [String.prototype.trim]. *)
Definition trim (s : string) : string := trimEnd (trimStart s).

(** Every character of the string is white space. *)
Fixpoint allWhiteSpace (s : string) : bool :=
  match s with
  | EmptyString => true
  | String c s' => isWhiteSpace c && allWhiteSpace s'
  end.

(** The lower-case mapping of one code point below U+0100: A..Z and the
    capital letters U+00C0..U+00DE (U+00D7, the multiplication sign, is not a
    letter) move up by 32; every other code point is its own lower case. *)
Definition toLowerChar (c : ascii) : ascii :=
  let n := N_of_ascii c in
  if ((65 <=? n) && (n <=? 90)
      || (192 <=? n) && (n <=? 222) && negb (n =? 215))%N
  then ascii_of_N (n + 32)
  else c.

(** [String.prototype.toLowerCase]. *)
Fixpoint toLowerCase (s : string) : string :=
  match s with
  | EmptyString => EmptyString
  | String c s' => String (toLowerChar c) (toLowerCase s')
  end.

(** [s.startsWith(p)]. *)
Fixpoint startsWith (s p : string) {struct p} : bool :=
  match p, s with
  | EmptyString, _ => true
  | String _ _, EmptyString => false
  | String a p', String b s' => Ascii.eqb a b && startsWith s' p'
  end.

(** [s.includes(sub)]: [sub] occurs in [s] at some position. *)
Fixpoint includes (s sub : string) : bool :=
  startsWith s sub
  || match s with
     | EmptyString => false
     | String _ s' => includes s' sub
     end.

(** *** Specification-side notions *)

(** [sub] occurs in [s]. *)
Definition occursIn (sub s : string) : Prop :=
  exists pre post, s = pre ++ sub ++ post.

(** Two strings are equal up to letter case. *)
Definition eqIgnoreCase (a b : string) : Prop :=
  toLowerCase a = toLowerCase b.

(** [s] contains [kw] up to letter case: some substring of [s] equals [kw]
    when case is ignored. *)
Definition containsIgnoreCase (s kw : string) : Prop :=
  exists pre mid post, s = pre ++ mid ++ post /\ eqIgnoreCase mid kw.

End JS.

(** ** [ChatEditor]: messages, scenes, tool panels and the simulated reply *)

Module ChatEditor.

Open Scope Z_scope.

(** The [type] field of a message: ['user'] or ['ai']. *)
Inductive MessageType : Set := user | ai.

(** An entry of the [options] array of a reply. *)
Record SceneOption : Set := mkOption {
  option_type : string;
  option_thumbnail : string
}.

(** A chat message.  [options] and [script] are the two optional fields of
    the object literal; [None] stands for a field that is absent. *)
Record Message : Set := mkMessage {
  id : Z;
  type : MessageType;
  content : string;
  options : option (list SceneOption);
  script : option string;
  timestamp : N
}.

(** An entry of the [scenes] array. *)
Record Scene : Set := mkScene {
  scene_id : Z;
  scene_thumbnail : string;
  scene_time : string
}.

(** A pending [setTimeout] of [generateAIResponse]: the time at which it is
    due and the two variables its callback closes over, [userInput] and the
    [messages] array of the render that scheduled it. *)
Record Timer : Set := mkTimer {
  due : N;
  userInput : string;
  closure_messages : list Message
}.

(** The four state cells of the component, the clock and the timer queue. *)
Record Session : Set := mkSession {
  messages : list Message;
  input : string;
  activeScene : Z;
  activeToolPanel : option string;
  now : N;
  timers : list Timer
}.

Definition setMessages (v : list Message) (s : Session) : Session :=
  mkSession v (input s) (activeScene s) (activeToolPanel s) (now s) (timers s).

Definition setInput (v : string) (s : Session) : Session :=
  mkSession (messages s) v (activeScene s) (activeToolPanel s) (now s) (timers s).

Definition setActiveScene (v : Z) (s : Session) : Session :=
  mkSession (messages s) (input s) v (activeToolPanel s) (now s) (timers s).

Definition setActiveToolPanel (v : option string) (s : Session) : Session :=
  mkSession (messages s) (input s) (activeScene s) v (now s) (timers s).

Definition setNow (v : N) (s : Session) : Session :=
  mkSession (messages s) (input s) (activeScene s) (activeToolPanel s) v (timers s).

Definition setTimers (v : list Timer) (s : Session) : Session :=
  mkSession (messages s) (input s) (activeScene s) (activeToolPanel s) (now s) v.

(** [setTimeout(callback, delay)]: the callback joins the queue, due [delay]
    milliseconds from now. *)
Definition setTimeout (uin : string) (closure : list Message) (delay : N)
    (s : Session) : Session :=
  setTimers (timers s ++ [mkTimer (now s + delay) uin closure]) s.

(** The state of the first render, at time [t0]. *)
Definition initialSession (t0 : N) : Session :=
  mkSession
    [mkMessage 1 ai "What would you like to change about your video?" None None t0]
    "" 0 None t0 [].

(** The mock scene catalog. *)
Definition scenes : list Scene :=
  [ mkScene 1 "https://via.placeholder.com/120x68/333/fff?text=Scene+1" "0:00-0:04";
    mkScene 2 "https://via.placeholder.com/120x68/333/fff?text=Scene+2" "0:05-0:09";
    mkScene 3 "https://via.placeholder.com/120x68/333/fff?text=Scene+3" "0:10-0:14" ].

Definition replaceContent : string :=
  "I can help replace that scene. Here are 3 alternatives I've generated based on your video style:".

Definition replaceOptions : list SceneOption :=
  [ mkOption "scene" "https://via.placeholder.com/160x90/444/fff?text=Option+1";
    mkOption "scene" "https://via.placeholder.com/160x90/444/fff?text=Option+2";
    mkOption "scene" "https://via.placeholder.com/160x90/444/fff?text=Option+3" ].

Definition scriptContent : string :=
  "Here's the current script for this scene. You can edit it directly:".

Definition defaultScript : string :=
  "Our product helps customers achieve their goals faster and with less effort than traditional methods.".

Definition menuContent : string :=
  "I can help you with that. Would you like to: 1) Change scenes, 2) Edit script, or 3) Adjust the storyboard?".

(** [messages.length] as a number. *)
Definition lengthOf (ms : list Message) : Z := Z.of_nat (List.length ms).

(** The object [aiResponse] built by the callback of [generateAIResponse]:
    [userInput] and [messages] come from the closure, [date] is [new Date()]
    at the moment the callback runs. *)
Definition aiResponse (userInput : string) (messages : list Message) (date : N)
    : Message :=
  let lowerInput := JS.toLowerCase userInput in
  if JS.includes lowerInput "replace" || JS.includes lowerInput "change scene" then
    mkMessage (lengthOf messages + 2) ai replaceContent (Some replaceOptions) None date
  else if JS.includes lowerInput "script" || JS.includes lowerInput "text" then
    mkMessage (lengthOf messages + 2) ai scriptContent None (Some defaultScript) date
  else
    mkMessage (lengthOf messages + 2) ai menuContent None None date.

(** The reply the callback of timer [t] builds when it runs at time [n]. *)
Definition replyOf (n : N) (t : Timer) : Message :=
  aiResponse (userInput t) (closure_messages t) n.

(** The callback itself: [setMessages(prev => [...prev, aiResponse])]. *)
Definition timeoutCallback (t : Timer) (s : Session) : Session :=
  setMessages (messages s ++ [replyOf (now s) t]) s.

(** [generateAIResponse(userInput)], called from a render whose [messages]
    array is [closure]: it only schedules the callback, 1000 ms ahead. *)
Definition generateAIResponse (closure : list Message) (userInput : string)
    (s : Session) : Session :=
  setTimeout userInput closure 1000%N s.

(** [handleSendMessage]. *)
Definition handleSendMessage (s : Session) : Session :=
  if String.eqb (JS.trim (input s)) "" then s
  else
    let userMessage :=
      mkMessage (lengthOf (messages s) + 1) user (input s) None None (now s) in
    generateAIResponse (messages s) (input s)
      (setInput "" (setMessages (messages s ++ [userMessage]) s)).

(** [handleSceneClick]. *)
Definition handleSceneClick (sceneId : Z) (s : Session) : Session :=
  setActiveScene sceneId s.

(** [handleToolClick]. *)
Definition handleToolClick (tool : string) (s : Session) : Session :=
  setActiveToolPanel (Some tool) s.

(** [handleCloseToolPanel]. *)
Definition handleCloseToolPanel (s : Session) : Session :=
  setActiveToolPanel None s.

(** What the content area of the editor shows. *)
Inductive View : Set :=
  | ChatView          (* video preview, thumbnails, tool buttons and chat *)
  | ScenesPanel
  | AudioPanel
  | SettingsPanel
  | NullView.         (* [getToolPanel] returned [null] *)

(** [getToolPanel], on the value of [activeToolPanel]. *)
Definition getToolPanel (tool : string) : View :=
  if String.eqb tool "scenes" then ScenesPanel
  else if String.eqb tool "audio" then AudioPanel
  else if String.eqb tool "settings" then SettingsPanel
  else NullView.

(** The conditional of the render: [activeToolPanel ? getToolPanel() : ...];
    [null] and the empty string are falsy. *)
Definition render (s : Session) : View :=
  match activeToolPanel s with
  | None => ChatView
  | Some tool => if String.eqb tool "" then ChatView else getToolPanel tool
  end.

(** The tool panels a view shows. *)
Definition openPanels (v : View) : list View :=
  match v with
  | ChatView | NullView => []
  | p => [p]
  end.

(** The callbacks of a list of timers, run in order. *)
Fixpoint runTimers (ts : list Timer) (s : Session) : Session :=
  match ts with
  | [] => s
  | t :: ts' => runTimers ts' (timeoutCallback t s)
  end.

Definition isDue (n : N) (t : Timer) : bool := (due t <=? n)%N.

(** [dt] milliseconds pass: the clock advances and the callbacks that are
    due by then run, oldest first, and leave the queue. *)
Definition elapse (dt : N) (s : Session) : Session :=
  let n := (now s + dt)%N in
  runTimers (filter (isDue n) (timers s))
    (setTimers (filter (fun t => negb (isDue n t)) (timers s)) (setNow n s)).

(** The events of a session. *)
Inductive Event : Set :=
  | Typing (text : string)       (* [onChange] of the chat input *)
  | Send                         (* send button, or Enter *)
  | SceneClick (sceneId : Z)
  | ToolClick (tool : string)
  | CloseTool
  | Elapse (dt : N).

Definition step (s : Session) (e : Event) : Session :=
  match e with
  | Typing text => setInput text s
  | Send => handleSendMessage s
  | SceneClick sceneId => handleSceneClick sceneId s
  | ToolClick tool => handleToolClick tool s
  | CloseTool => handleCloseToolPanel s
  | Elapse dt => elapse dt s
  end.

Definition run (es : list Event) (s : Session) : Session := fold_left step es s.

(** The events the rendered interface can deliver in state [s]: the chat
    input, the send action, the three thumbnails and the three tool buttons
    exist only in the chat view, a thumbnail passes the id of its own scene,
    a tool button its own name, and the back button exists only in a panel.
    Time passes in every state. *)
Definition offered (s : Session) (e : Event) : bool :=
  match e with
  | Typing _ | Send =>
      match render s with ChatView => true | _ => false end
  | SceneClick sceneId =>
      match render s with
      | ChatView => existsb (Z.eqb sceneId) (map scene_id scenes)
      | _ => false
      end
  | ToolClick tool =>
      match render s with
      | ChatView =>
          existsb (String.eqb tool) ["scenes"; "audio"; "settings"]
      | _ => false
      end
  | CloseTool =>
      match render s with
      | ScenesPanel | AudioPanel | SettingsPanel => true
      | _ => false
      end
  | Elapse _ => true
  end.

(** The states a session goes through when driven by its interface. *)
Inductive reachable (t0 : N) : Session -> Prop :=
  | reach_init : reachable t0 (initialSession t0)
  | reach_step s e :
      reachable t0 s -> offered s e = true -> reachable t0 (step s e).

(** [run], with every event checked against what the interface offers. *)
Fixpoint allOffered (es : list Event) (s : Session) : bool :=
  match es with
  | [] => true
  | e :: es' => offered s e && allOffered es' (step s e)
  end.

(** The two keyword classes of the reply policy, as the specification words
    them: the text contains a keyword, letter case being ignored. *)
Definition asksReplace (text : string) : Prop :=
  JS.containsIgnoreCase text "replace" \/ JS.containsIgnoreCase text "change scene".

Definition asksScript (text : string) : Prop :=
  JS.containsIgnoreCase text "script" \/ JS.containsIgnoreCase text "text".

(** The ids of the messages, in log order. *)
Definition ids (s : Session) : list Z := map id (messages s).

(** Each later id is strictly greater than every earlier one. *)
Definition strictlyIncreasing (l : list Z) : Prop :=
  forall i j a b, (i < j)%nat -> nth_error l i = Some a -> nth_error l j = Some b -> a < b.

(** *** The rest of the component *)

(** The two fields of the keyboard event that [handleKeyDown] reads. *)
Record KeyboardEvent : Set := mkKeyboardEvent {
  key : string;
  shiftKey : bool
}.

(** [handleKeyDown]: the new state, and whether [e.preventDefault()] was
    called. *)
Definition handleKeyDown (e : KeyboardEvent) (s : Session) : Session * bool :=
  if String.eqb (key e) "Enter" && negb (shiftKey e)
  then (handleSendMessage s, true)
  else (s, false).

(** The [disabled] attribute of the send button: [input.trim() === '']. *)
Definition sendDisabled (s : Session) : bool :=
  String.eqb (JS.trim (input s)) "".

(** [message.options && ...]: the option grid of a message is rendered when
    the field is present (an array is truthy, also when empty). *)
Definition showsOptionGrid (m : Message) : bool :=
  match options m with
  | Some _ => true
  | None => false
  end.

(** [message.script && ...]: the script editor of a message is rendered when
    the field is present and not the empty string. *)
Definition showsScriptEditor (m : Message) : bool :=
  match script m with
  | Some text => negb (String.eqb text "")
  | None => false
  end.

(** [activeScene === scene.id], the test behind the [active] class and
    [aria-pressed] of a thumbnail. *)
Definition thumbnailActive (s : Session) (sc : Scene) : bool :=
  activeScene s =? scene_id sc.

(** The thumbnails rendered as active. *)
Definition activeThumbnails (s : Session) : list Scene :=
  filter (thumbnailActive s) scenes.

Definition isUser (m : Message) : bool :=
  match type m with user => true | ai => false end.

Definition isAi (m : Message) : bool :=
  match type m with ai => true | user => false end.

(** The number of messages of each type in a log. *)
Definition countUser (ms : list Message) : nat := List.length (filter isUser ms).
Definition countAi (ms : list Message) : nat := List.length (filter isAi ms).

(** No callback is pending. *)
Definition idle (s : Session) : bool :=
  match timers s with
  | [] => true
  | _ :: _ => false
  end.

(** A run in which nothing is sent while a reply is pending. *)
Fixpoint sendsWhenIdle (es : list Event) (s : Session) : bool :=
  match es with
  | [] => true
  | e :: es' =>
      match e with Send => idle s | _ => true end
      && sendsWhenIdle es' (step s e)
  end.

(** The balance of a session: replies received and replies pending against
    messages sent, the greeting counted apart. *)
Definition balanced (s : Session) : Prop :=
  (countAi (messages s) + List.length (timers s) = 1 + countUser (messages s))%nat.

(** Every pending callback is due in the future, at most 1000 ms ahead. *)
Definition timersWithin (s : Session) : Prop :=
  Forall (fun t => (now s < due t <= now s + 1000)%N) (timers s).

(** The numbers 1, 2, ..., n. *)
Definition upTo (n : nat) : list Z := map Z.of_nat (seq 1 n).

(** The ids of the log are 1, 2, ..., and at most one callback is pending,
    scheduled by the render that preceded the last message. *)
Definition numbered (s : Session) : Prop :=
  ids s = upTo (List.length (messages s))
  /\ (timers s = []
      \/ exists t, timers s = [t]
           /\ S (List.length (closure_messages t)) = List.length (messages s)).

(** The timestamps of the log never decrease and none lies in the future. *)
Definition timeOrdered (s : Session) : Prop :=
  StronglySorted N.le (map timestamp (messages s))
  /\ Forall (fun m => (timestamp m <= now s)%N) (messages s).

(** What the render of one message shows beside its text: an option grid
    only on a message of type ai that carries the three scene options, and
    then no script editor; a script editor only on a message of type ai
    that carries the default script. *)
Definition rendersWell (m : Message) : Prop :=
  (showsOptionGrid m = true ->
     showsScriptEditor m = false /\ type m = ai /\ options m = Some replaceOptions)
  /\ (showsScriptEditor m = true ->
     type m = ai /\ script m = Some defaultScript).

End ChatEditor.

(** ** [AudioPanel]: the preview playback flag *)

Module AudioPanel.

(** An entry of [voiceOptions]. *)
Record Voice : Set := mkVoice {
  voice_id : string;
  voice_name : string;
  voice_sample : string
}.

(** An entry of [musicTracks]. *)
Record Track : Set := mkTrack {
  track_id : string;
  track_name : string;
  track_duration : string;
  track_category : string
}.

Definition voiceOptions : list Voice :=
  [ mkVoice "v1" "Professional Male" "sample1.mp3";
    mkVoice "v2" "Professional Female" "sample2.mp3";
    mkVoice "v3" "Casual Male" "sample3.mp3";
    mkVoice "v4" "Casual Female" "sample4.mp3";
    mkVoice "v5" "Energetic" "sample5.mp3";
    mkVoice "v6" "Soft Spoken" "sample6.mp3" ].

Definition musicTracks : list Track :=
  [ mkTrack "m1" "Inspiring Corporate" "2:30" "Corporate";
    mkTrack "m2" "Upbeat Pop" "3:15" "Energetic";
    mkTrack "m3" "Emotional Piano" "2:45" "Emotional";
    mkTrack "m4" "Tech Innovation" "3:05" "Technology";
    mkTrack "m5" "Ambient Chill" "4:20" "Relaxed" ].

(** The three state cells of the panel, the clock and the queue of pending
    timers.  Every timer of this component has the same callback,
    [setPlaying(null)], so a timer is its due time. *)
Record Panel : Set := mkPanel {
  activeTab : string;
  playing : option string;
  script : string;
  now : N;
  timers : list N
}.

Definition initialPanel (t0 : N) : Panel :=
  mkPanel "voice" None
    "Our product helps customers achieve their goals faster and with less effort than traditional methods."
    t0 [].

Definition setActiveTab (v : string) (s : Panel) : Panel :=
  mkPanel v (playing s) (script s) (now s) (timers s).

Definition setPlaying (v : option string) (s : Panel) : Panel :=
  mkPanel (activeTab s) v (script s) (now s) (timers s).

Definition setScript (v : string) (s : Panel) : Panel :=
  mkPanel (activeTab s) (playing s) v (now s) (timers s).

Definition setNow (v : N) (s : Panel) : Panel :=
  mkPanel (activeTab s) (playing s) (script s) v (timers s).

Definition setTimers (v : list N) (s : Panel) : Panel :=
  mkPanel (activeTab s) (playing s) (script s) (now s) v.

(** [setTimeout(() => setPlaying(null), delay)]. *)
Definition setTimeout (delay : N) (s : Panel) : Panel :=
  setTimers (timers s ++ [(now s + delay)%N]) s.

(** [playing === x]: [null] is strictly equal to no id. *)
Definition isPlaying (s : Panel) (x : string) : bool :=
  match playing s with
  | None => false
  | Some y => String.eqb y x
  end.

(** [handlePlayVoice]. *)
Definition handlePlayVoice (voiceId : string) (s : Panel) : Panel :=
  if isPlaying s voiceId then setPlaying None s
  else setTimeout 3000 (setPlaying (Some voiceId) s).

(** [handlePlayMusic]. *)
Definition handlePlayMusic (trackId : string) (s : Panel) : Panel :=
  if isPlaying s trackId then setPlaying None s
  else setPlaying (Some trackId) s.

(** [handleScriptChange]. *)
Definition handleScriptChange (value : string) (s : Panel) : Panel :=
  setScript value s.

(** The callback of every timer. *)
Definition timeoutCallback (s : Panel) : Panel := setPlaying None s.

Fixpoint runTimers (ts : list N) (s : Panel) : Panel :=
  match ts with
  | [] => s
  | _ :: ts' => runTimers ts' (timeoutCallback s)
  end.

(** [dt] milliseconds pass: the callbacks due by then run and leave the
    queue. *)
Definition elapse (dt : N) (s : Panel) : Panel :=
  let n := (now s + dt)%N in
  runTimers (filter (fun d => (d <=? n)%N) (timers s))
    (setTimers (filter (fun d => negb (d <=? n)%N) (timers s)) (setNow n s)).

(** The events of the panel. *)
Inductive Event : Set :=
  | SelectTab (tab : string)
  | PlayVoice (voiceId : string)
  | PlayMusic (trackId : string)
  | ScriptChange (value : string)
  | Elapse (dt : N).

Definition step (s : Panel) (e : Event) : Panel :=
  match e with
  | SelectTab tab => setActiveTab tab s
  | PlayVoice voiceId => handlePlayVoice voiceId s
  | PlayMusic trackId => handlePlayMusic trackId s
  | ScriptChange value => handleScriptChange value s
  | Elapse dt => elapse dt s
  end.

Definition run (es : list Event) (s : Panel) : Panel := fold_left step es s.

(** The ids of every preview of the panel, voices and tracks. *)
Definition previewIds : list string :=
  map voice_id voiceOptions ++ map track_id musicTracks.

(** The previews whose button shows the pause icon, [playing === id]. *)
Definition playingPreviews (s : Panel) : list string :=
  filter (isPlaying s) previewIds.

(** *** The rest of the component *)

(** [activeTab === 'voice'] and [activeTab === 'music'], the conditions
    under which the content of each tab is rendered. *)
Definition showsVoiceTab (s : Panel) : bool := String.eqb (activeTab s) "voice".
Definition showsMusicTab (s : Panel) : bool := String.eqb (activeTab s) "music".

(** The events the rendered panel can deliver in state [s]: the two tab
    buttons pass their own names, a voice play button exists in the voice
    tab and passes the id of its own voice, a track play button exists in
    the music tab and passes the id of its own track, and the script text
    area exists in the voice tab.  Time passes in every state. *)
Definition offered (s : Panel) (e : Event) : bool :=
  match e with
  | SelectTab tab => existsb (String.eqb tab) ["voice"; "music"]
  | PlayVoice voiceId =>
      showsVoiceTab s && existsb (String.eqb voiceId) (map voice_id voiceOptions)
  | PlayMusic trackId =>
      showsMusicTab s && existsb (String.eqb trackId) (map track_id musicTracks)
  | ScriptChange _ => showsVoiceTab s
  | Elapse _ => true
  end.

(** The states a panel goes through when driven by its interface. *)
Inductive reachable (t0 : N) : Panel -> Prop :=
  | reach_init : reachable t0 (initialPanel t0)
  | reach_step s e :
      reachable t0 s -> offered s e = true -> reachable t0 (step s e).

(** The last text typed into the script area during a run, [d] if none. *)
Fixpoint lastScript (es : list Event) (d : string) : string :=
  match es with
  | [] => d
  | ScriptChange value :: es' => lastScript es' value
  | _ :: es' => lastScript es' d
  end.

(** Every pending callback is due in the future, at most 3000 ms ahead. *)
Definition timersWithin (s : Panel) : Prop :=
  Forall (fun d => (now s < d <= now s + 3000)%N) (timers s).

(** A callback pending in [s] is due within the next [dt] milliseconds. *)
Definition timerDueWithin (dt : N) (s : Panel) : bool :=
  existsb (fun d => (d <=? now s + dt)%N) (timers s).

(** What the interface can have put in the cells: a tab name of the two, and
    no id or the id of a preview. *)
Definition wellFormed (s : Panel) : Prop :=
  (activeTab s = "voice" \/ activeTab s = "music")
  /\ (playing s = None \/ exists x, playing s = Some x /\ In x previewIds).

End AudioPanel.

(** * Properties *)

(** ** Facts about the string functions *)

Module JSFacts.
Import JS.



Lemma startsWith_spec (s p : string) :
  startsWith s p = true <-> exists post, s = p ++ post.
Proof.
  revert s; induction p as [|a p IH]; intros s; simpl.
  - split; [intros _; now exists s | reflexivity].
  - destruct s as [|b s].
    + split; [discriminate | intros [post H]; discriminate].
    + rewrite andb_true_iff, Ascii.eqb_eq, IH. split.
      * intros [-> [post ->]]. now exists post.
      * intros [post H]. injection H as -> ->. split; [reflexivity | now exists post].
Qed.

Lemma includes_spec (s sub : string) :
  includes s sub = true <-> occursIn sub s.
Proof.
  unfold occursIn. induction s as [|c s IH].
  - simpl. rewrite orb_false_r, startsWith_spec. split.
    + intros [post H]. now exists "", post.
    + intros [pre [post H]]. destruct pre; [now exists post | discriminate].
  - cbn [includes]. rewrite orb_true_iff, startsWith_spec, IH. split.
    + intros [[post H] | [pre [post H]]].
      * now exists "", post.
      * exists (String c pre), post. simpl. now rewrite H.
    + intros [pre [post H]]. destruct pre as [|d pre].
      * left. now exists post.
      * right. simpl in H. injection H as _ H. now exists pre, post.
Qed.

Lemma toLowerCase_app (a b : string) :
  toLowerCase (a ++ b) = toLowerCase a ++ toLowerCase b.
Proof. induction a as [|c a IH]; simpl; [reflexivity | now rewrite IH]. Qed.

(** A split of the lower-cased string comes from a split of the string. *)
Lemma toLowerCase_split (s x y : string) :
  toLowerCase s = x ++ y ->
  exists a b, s = a ++ b /\ toLowerCase a = x /\ toLowerCase b = y.
Proof.
  revert s; induction x as [|c x IH]; intros s H.
  - exists "", s. auto.
  - destruct s as [|d s]; [discriminate|].
    simpl in H. injection H as Hc H.
    destruct (IH _ H) as [a [b [-> [Ha Hb]]]].
    exists (String d a), b. simpl. now rewrite Hc, Ha.
Qed.

Lemma toLowerChar_idem (c : ascii) : toLowerChar (toLowerChar c) = toLowerChar c.
Proof.
  destruct c as [[] [] [] [] [] [] [] []]; reflexivity.
Qed.

Lemma toLowerCase_idem (s : string) : toLowerCase (toLowerCase s) = toLowerCase s.
Proof.
  induction s as [|c s IH]; simpl; [reflexivity | now rewrite toLowerChar_idem, IH].
Qed.

(** The test the source performs, [s.toLowerCase().includes(kw)], is
    containment up to letter case whenever the keyword is in lower case. *)
Lemma includes_toLowerCase (s kw : string) :
  toLowerCase kw = kw ->
  includes (toLowerCase s) kw = true <-> containsIgnoreCase s kw.
Proof.
  intros Hkw. rewrite includes_spec. unfold occursIn, containsIgnoreCase, eqIgnoreCase.
  split.
  - intros [x [z H]].
    destruct (toLowerCase_split _ _ _ H) as [pre [rest [-> [_ Hrest]]]].
    destruct (toLowerCase_split _ _ _ Hrest) as [mid [post [-> [Hmid _]]]].
    exists pre, mid, post. split; [reflexivity | now rewrite Hmid, Hkw].
  - intros [pre [mid [post [-> H]]]].
    exists (toLowerCase pre), (toLowerCase post).
    now rewrite !toLowerCase_app, H, Hkw.
Qed.

Lemma trimStart_empty (s : string) :
  trimStart s = "" <-> allWhiteSpace s = true.
Proof.
  induction s as [|c s IH]; simpl.
  - tauto.
  - destruct (isWhiteSpace c); simpl; [exact IH | split; discriminate].
Qed.

Lemma trimEnd_empty (s : string) :
  trimEnd s = "" <-> allWhiteSpace s = true.
Proof.
  induction s as [|c s IH]; simpl.
  - tauto.
  - destruct (trimEnd s) eqn:E.
    + destruct (isWhiteSpace c); simpl.
      * split; [intros _; now apply IH | reflexivity].
      * split; discriminate.
    + split; [discriminate|].
      rewrite andb_true_iff. intros [_ H]. apply IH in H. discriminate.
Qed.

Lemma trimStart_allWhiteSpace (s : string) :
  allWhiteSpace (trimStart s) = allWhiteSpace s.
Proof.
  induction s as [|c s IH]; simpl; [reflexivity|].
  destruct (isWhiteSpace c) eqn:E; simpl; [exact IH | now rewrite E].
Qed.

(** [s.trim() === ''] exactly when [s] is empty or all white space. *)
Lemma trim_empty (s : string) :
  trim s = "" <-> allWhiteSpace s = true.
Proof.
  unfold trim. now rewrite trimEnd_empty, trimStart_allWhiteSpace.
Qed.

Lemma append_assoc (a b c : string) : (a ++ b) ++ c = a ++ b ++ c.
Proof. induction a as [|x a IH]; simpl; [reflexivity | now rewrite IH]. Qed.

(** An occurrence survives any text placed before and after. *)
Lemma includes_context (pre u post kw : string) :
  includes u kw = true -> includes (pre ++ u ++ post) kw = true.
Proof.
  rewrite !includes_spec. intros [a [b ->]].
  exists (pre ++ a), (b ++ post). now rewrite !append_assoc.
Qed.

End JSFacts.

(** ** The chat editor *)

Module ChatEditorProps.
Import ChatEditor.

Open Scope Z_scope.
Open Scope list_scope.

(** *** The reply policy *)

(** The two tests of [aiResponse] decide the two keyword classes. *)
Lemma asksReplace_iff (text : string) :
  asksReplace text <->
  JS.includes (JS.toLowerCase text) "replace"
  || JS.includes (JS.toLowerCase text) "change scene" = true.
Proof.
  unfold asksReplace.
  rewrite orb_true_iff, !JSFacts.includes_toLowerCase by reflexivity.
  reflexivity.
Qed.

Lemma asksScript_iff (text : string) :
  asksScript text <->
  JS.includes (JS.toLowerCase text) "script"
  || JS.includes (JS.toLowerCase text) "text" = true.
Proof.
  unfold asksScript.
  rewrite orb_true_iff, !JSFacts.includes_toLowerCase by reflexivity.
  reflexivity.
Qed.

(** C1.  For every input text, message log and time: when the text contains
    "replace" or "change scene" (case ignored) the reply carries exactly
    three options, each of type scene, and no script; otherwise, when it
    contains "script" or "text", it carries no options and one script, the
    fixed default script; otherwise it is the fixed menu text with neither
    options nor script. *)
Theorem aiResponse_policy (userInput : string) (ms : list Message) (date : N) :
  let r := aiResponse userInput ms date in
  (asksReplace userInput ->
     content r = replaceContent /\ script r = None /\
     exists o1 o2 o3,
       options r = Some [o1; o2; o3] /\
       Forall (fun o => option_type o = "scene") [o1; o2; o3])
  /\ (~ asksReplace userInput -> asksScript userInput ->
     content r = scriptContent /\ options r = None /\
     script r = Some defaultScript)
  /\ (~ asksReplace userInput -> ~ asksScript userInput ->
     content r = menuContent /\ options r = None /\ script r = None).
Proof.
  cbv zeta. unfold aiResponse.
  rewrite asksReplace_iff, asksScript_iff.
  destruct (JS.includes (JS.toLowerCase userInput) "replace"
            || JS.includes (JS.toLowerCase userInput) "change scene") eqn:E1;
  [| destruct (JS.includes (JS.toLowerCase userInput) "script"
            || JS.includes (JS.toLowerCase userInput) "text") eqn:E2 ];
  cbn [content script options]; repeat split; intros; try congruence.
  eexists _, _, _. split; [reflexivity|].
  repeat constructor.
Qed.

(** The three examples of the specification. *)
Lemma aiResponse_policy_witness :
  (exists o1 o2 o3,
     options (aiResponse "please replace this scene" [] 0) = Some [o1; o2; o3])
  /\ script (aiResponse "edit the script" [] 0) = Some defaultScript
  /\ (content (aiResponse "hello" [] 0) = menuContent
      /\ options (aiResponse "hello" [] 0) = None
      /\ script (aiResponse "hello" [] 0) = None).
Proof.
  split; [| split].
  - destruct (aiResponse_policy "please replace this scene" [] 0) as [H _].
    destruct H as [_ [_ [o1 [o2 [o3 [H _]]]]]].
    + left. exists "please ", "replace", " this scene". split; reflexivity.
    + exists o1, o2, o3. exact H.
  - destruct (aiResponse_policy "edit the script" [] 0) as [_ [H _]].
    apply H.
    + rewrite asksReplace_iff. vm_compute. discriminate.
    + left. exists "edit the ", "script", "". split; reflexivity.
  - destruct (aiResponse_policy "hello" [] 0) as [_ [_ H]].
    apply H.
    + rewrite asksReplace_iff. vm_compute. discriminate.
    + rewrite asksScript_iff. vm_compute. discriminate.
Defined.

(** *** Timers *)

Lemma setMessages_same (s : Session) : setMessages (messages s) s = s.
Proof. now destruct s. Qed.

(** Running callbacks appends their replies, in order, and touches nothing
    else. *)
Lemma runTimers_eq (ts : list Timer) (s : Session) :
  runTimers ts s = setMessages (messages s ++ map (replyOf (now s)) ts) s.
Proof.
  revert s; induction ts as [|t ts IH]; intros s; simpl.
  - now rewrite app_nil_r, setMessages_same.
  - rewrite IH. unfold timeoutCallback, setMessages, replyOf; simpl.
    now rewrite <- app_assoc.
Qed.

Lemma elapse_messages (dt : N) (s : Session) :
  messages (elapse dt s) =
  messages s ++ map (replyOf (now s + dt)) (filter (isDue (now s + dt)) (timers s)).
Proof. unfold elapse. now rewrite runTimers_eq. Qed.

Lemma elapse_timers (dt : N) (s : Session) :
  timers (elapse dt s) = filter (fun t => negb (isDue (now s + dt) t)) (timers s).
Proof. unfold elapse. now rewrite runTimers_eq. Qed.

Lemma elapse_now (dt : N) (s : Session) : now (elapse dt s) = (now s + dt)%N.
Proof. unfold elapse. now rewrite runTimers_eq. Qed.

(** What a send with a non-blank input does to each cell. *)
Lemma handleSendMessage_send (s : Session) :
  JS.trim (input s) <> "" ->
  handleSendMessage s =
  mkSession
    (messages s ++
       [mkMessage (lengthOf (messages s) + 1) user (input s) None None (now s)])
    "" (activeScene s) (activeToolPanel s) (now s)
    (timers s ++ [mkTimer (now s + 1000) (input s) (messages s)]).
Proof.
  intros H. unfold handleSendMessage.
  destruct (String.eqb_spec (JS.trim (input s)) ""); [contradiction | reflexivity].
Qed.

(** *** Sending *)

(** C2.  When the input does not trim to the empty string, [handleSendMessage]
    appends one message of type user, holding the input, to the log at once,
    empties the input, and queues one callback: in the [dt] milliseconds that
    follow, the log grows by the replies [earlier] of the callbacks that were
    already pending (the same it would have grown by without the send) and by
    [own], which is empty while [dt < 1000] and is one message of type ai from
    [dt = 1000] on, after which the callback is no longer pending.  When the
    input trims to the empty string the state is unchanged. *)
Theorem handleSendMessage_spec (s : Session) :
  (JS.trim (input s) <> "" ->
     let s1 := handleSendMessage s in
     (exists m, messages s1 = messages s ++ [m] /\ type m = user /\
                content m = input s /\ id m = lengthOf (messages s) + 1)
     /\ input s1 = ""
     /\ forall dt, exists earlier own,
          messages (elapse dt s) = messages s ++ earlier
          /\ messages (elapse dt s1) = messages s1 ++ earlier ++ own
          /\ ((dt < 1000)%N -> own = [])
          /\ ((1000 <= dt)%N ->
                timers (elapse dt s1) = timers (elapse dt s) /\
                exists r, own = [r] /\ type r = ai /\
                          r = aiResponse (input s) (messages s) (now s + dt)))
  /\ (JS.trim (input s) = "" -> handleSendMessage s = s).
Proof.
  split.
  - intros H. cbv zeta. rewrite (handleSendMessage_send s H).
    split; [eexists; cbn; repeat split | split; [reflexivity|]].
    intros dt.
    set (t := mkTimer (now s + 1000) (input s) (messages s)).
    assert (E : isDue (now s + dt) t = (1000 <=? dt)%N).
    { unfold isDue, t; cbn [due].
      destruct (N.leb_spec (now s + 1000) (now s + dt)), (N.leb_spec 1000 dt);
        [reflexivity | lia | lia | reflexivity]. }
    exists (map (replyOf (now s + dt)) (filter (isDue (now s + dt)) (timers s))).
    exists (map (replyOf (now s + dt)) (filter (isDue (now s + dt)) [t])).
    rewrite !elapse_messages, !elapse_timers. cbn [messages timers now].
    rewrite !filter_app, map_app.
    split; [reflexivity | split; [reflexivity|]].
    cbn [filter]. rewrite E.
    split; intros Hdt.
    + destruct (N.leb_spec 1000 dt); [lia | reflexivity].
    + destruct (N.leb_spec 1000 dt); [| lia].
      cbn [negb map]. rewrite app_nil_r. split; [reflexivity|].
      eexists. split; [reflexivity|]. split; [| reflexivity].
      unfold replyOf, aiResponse, t; cbn [userInput closure_messages].
      repeat match goal with |- context [if ?b then _ else _] => destruct b end;
        reflexivity.
  - intros H. unfold handleSendMessage. now rewrite H.
Qed.

(** A message is typed and sent in a fresh session; a blank input is sent. *)
Lemma handleSendMessage_spec_witness :
  (exists m, messages (handleSendMessage (setInput "hello" (initialSession 0)))
             = messages (initialSession 0) ++ [m] /\ type m = user)
  /\ handleSendMessage (setInput "  " (initialSession 0))
     = setInput "  " (initialSession 0).
Proof.
  split.
  - destruct (handleSendMessage_spec (setInput "hello" (initialSession 0))) as [H _].
    destruct H as [[m [Hm [Ht _]]] _].
    + vm_compute. discriminate.
    + exists m. split; [exact Hm | exact Ht].
  - destruct (handleSendMessage_spec (setInput "  " (initialSession 0))) as [_ H].
    apply H. reflexivity.
Defined.

(** *** Message ids *)

Lemma reachable_run (t0 : N) (es : list Event) (s : Session) :
  reachable t0 s -> allOffered es s = true -> reachable t0 (run es s).
Proof.
  revert s; induction es as [|e es IH]; intros s Hs H; simpl in *.
  - exact Hs.
  - apply andb_true_iff in H as [He Hes].
    apply IH; [now apply reach_step | exact Hes].
Qed.

(** While no reply is pending, a send followed by its reply extends a log
    numbered 1, 2, ..., n by n + 1 and n + 2. *)
Lemma ids_exchange (s : Session) (dt : N) :
  timers s = [] -> JS.trim (input s) <> "" -> (1000 <= dt)%N ->
  ids (elapse dt (handleSendMessage s)) =
  ids s ++ [lengthOf (messages s) + 1; lengthOf (messages s) + 2].
Proof.
  intros Ht Hin Hdt. unfold ids.
  rewrite elapse_messages, (handleSendMessage_send s Hin), Ht.
  cbn [messages timers now app filter]. unfold isDue; cbn [due].
  destruct (N.leb_spec (now s + 1000) (now s + dt)); [| lia].
  rewrite !map_app. cbn [map id]. rewrite <- app_assoc. cbn [app].
  do 3 f_equal. unfold replyOf, aiResponse; cbn [userInput closure_messages].
  repeat match goal with |- context [if ?b then _ else _] => destruct b end;
    reflexivity.
Qed.

(** C3.  Two messages are sent before the first reply lands: the second user
    message and the first reply both get id 3, so the ids of the log, in
    order, are 1, 2, 3, 3, 4 and are not strictly increasing.  The trace is
    one the interface offers. *)
Theorem ids_repeat_when_sends_overlap :
  let trace := [Typing "a"; Send; Typing "b"; Send; Elapse 1000] in
  allOffered trace (initialSession 0) = true
  /\ reachable 0 (run trace (initialSession 0))
  /\ ids (run trace (initialSession 0)) = [1; 2; 3; 3; 4]
  /\ map type (messages (run trace (initialSession 0))) = [ai; user; user; ai; ai]
  /\ ~ strictlyIncreasing (ids (run trace (initialSession 0))).
Proof.
  cbv zeta. split; [reflexivity|]. split; [| split; [reflexivity | split; [reflexivity|]]].
  - apply reachable_run; [constructor | reflexivity].
  - intros H.
    assert (3 < 3) as H' by (apply (H 2%nat 3%nat); [lia | reflexivity | reflexivity]).
    lia.
Qed.

(** *** Determinism of the reply *)

(** C4, as stated, fails: the reply to one and the same text differs between
    a log of one message and a log of three, at one and the same time. *)
Lemma aiResponse_depends_on_log :
  let ms1 := messages (initialSession 0) in
  let ms3 := messages (run [Typing "hello"; Send; Elapse 1000] (initialSession 0)) in
  aiResponse "hello" ms1 2000 <> aiResponse "hello" ms3 2000
  /\ id (aiResponse "hello" ms1 2000) = 3
  /\ id (aiResponse "hello" ms3 2000) = 5.
Proof.
  cbv zeta. split; [| split; reflexivity].
  intros H. apply (f_equal id) in H. vm_compute in H. discriminate H.
Qed.

(** C4, amended.  The type, content, options and script of the reply are
    those of the reply to the same text for the empty log at time 0: they
    depend on the text alone.  Its id is the length of the log of the render
    that sent the message plus 2, and its timestamp is the time at which the
    callback runs. *)
Theorem aiResponse_deterministic_fields (userInput : string)
    (ms : list Message) (date : N) :
  let r0 := aiResponse userInput [] 0 in
  aiResponse userInput ms date =
  mkMessage (lengthOf ms + 2) ai (content r0) (options r0) (script r0) date.
Proof.
  cbv zeta. unfold aiResponse.
  repeat match goal with |- context [if ?b then _ else _] => destruct b end;
    reflexivity.
Qed.

(** *** The scenario *)

(** C5, as stated, fails: a session starts with the greeting in its log, so
    after "change scene" and its reply the log has three messages, not two. *)
Lemma change_scene_count_is_3 :
  let s := run [Typing "change scene"; Send; Elapse 1000] (initialSession 0) in
  messages (initialSession 0) <> []
  /\ List.length (messages s) = 3%nat
  /\ List.length (messages s) <> 2%nat.
Proof.
  cbv zeta. split; [discriminate | split; [reflexivity | discriminate]].
Qed.

(** C5, amended.  In a session started at any time, after "change scene" is
    sent and 1000 ms pass, the log is the greeting, the user message and one
    reply of type ai that carries the three scene options: three messages. *)
Theorem change_scene_scenario (t0 : N) :
  let s := run [Typing "change scene"; Send; Elapse 1000] (initialSession t0) in
  exists g u r,
    messages (initialSession t0) = [g]
    /\ messages s = [g; u; r]
    /\ type u = user /\ content u = "change scene"%string
    /\ type r = ai /\ options r = Some replaceOptions
    /\ List.length replaceOptions = 3%nat
    /\ List.length (messages s) = 3%nat.
Proof.
  cbv zeta. unfold run; cbn [fold_left step].
  rewrite elapse_messages.
  rewrite handleSendMessage_send by (vm_compute; discriminate).
  cbn [messages timers now input setInput initialSession app filter].
  unfold isDue; cbn [due]. rewrite N.leb_refl. cbn [map].
  do 3 eexists. repeat split.
Qed.

(** From a log with no message at all, which no session starts with, the
    same exchange gives a log of two messages. *)
Lemma change_scene_from_empty_log (t0 : N) :
  let s0 := setMessages [] (initialSession t0) in
  List.length
    (messages (run [Typing "change scene"; Send; Elapse 1000] s0)) = 2%nat.
Proof.
  cbv zeta. unfold run; cbn [fold_left step].
  rewrite elapse_messages.
  rewrite handleSendMessage_send by (vm_compute; discriminate).
  cbn [messages timers now input setInput setMessages initialSession app filter].
  unfold isDue; cbn [due]. rewrite N.leb_refl. reflexivity.
Qed.

(** *** The active scene *)

Lemma existsb_Zeqb_In (x : Z) (l : list Z) :
  existsb (Z.eqb x) l = true -> In x l.
Proof.
  rewrite existsb_exists. intros [y [Hy E]]. apply Z.eqb_eq in E. now subst.
Qed.

Lemma elapse_activeScene (dt : N) (s : Session) :
  activeScene (elapse dt s) = activeScene s.
Proof. unfold elapse. now rewrite runTimers_eq. Qed.

Lemma handleSendMessage_activeScene (s : Session) :
  activeScene (handleSendMessage s) = activeScene s.
Proof.
  unfold handleSendMessage. now destruct (String.eqb (JS.trim (input s)) "").
Qed.

(** C6, as stated, fails: 99 is the id of no scene, yet [handleSceneClick 99]
    changes the state and makes 99 the active scene; and the active scene of
    a fresh session, 0, is the id of no scene either. *)
Lemma handleSceneClick_unknown_id :
  ~ In 99 (map scene_id scenes)
  /\ handleSceneClick 99 (initialSession 0) <> initialSession 0
  /\ activeScene (handleSceneClick 99 (initialSession 0)) = 99
  /\ activeScene (initialSession 0) = 0
  /\ ~ In 0 (map scene_id scenes).
Proof.
  repeat split; try reflexivity.
  - cbn. intuition discriminate.
  - discriminate.
  - cbn. intuition discriminate.
Qed.

(** C6, amended.  [handleSceneClick] makes the id it is given the active
    scene, whatever the id, and changes no other cell.  The thumbnails pass
    ids of the catalog only, so in every state a session reaches through its
    interface the active scene is either the one the session started with or
    the id of a scene of the catalog. *)
Theorem activeScene_reachable (t0 : N) (s : Session) (H : reachable t0 s) :
  (forall sceneId,
     activeScene (handleSceneClick sceneId s) = sceneId
     /\ messages (handleSceneClick sceneId s) = messages s
     /\ input (handleSceneClick sceneId s) = input s
     /\ activeToolPanel (handleSceneClick sceneId s) = activeToolPanel s
     /\ timers (handleSceneClick sceneId s) = timers s)
  /\ (activeScene s = activeScene (initialSession t0)
      \/ In (activeScene s) (map scene_id scenes)).
Proof.
  split; [intros sceneId; repeat split|].
  induction H as [|s e Hs IH He].
  - now left.
  - destruct e; cbn [step];
      rewrite ?elapse_activeScene, ?handleSendMessage_activeScene; try exact IH.
    right. cbn [offered] in He. cbn [handleSceneClick setActiveScene activeScene].
    destruct (render s); try discriminate.
    now apply existsb_Zeqb_In.
Qed.

(** The second thumbnail is clicked in a fresh session. *)
Lemma activeScene_reachable_witness :
  reachable 0 (step (initialSession 0) (SceneClick 2))
  /\ In (activeScene (step (initialSession 0) (SceneClick 2))) (map scene_id scenes).
Proof.
  assert (R : reachable 0 (step (initialSession 0) (SceneClick 2)))
    by (apply reach_step; [apply reach_init | reflexivity]).
  split; [exact R|].
  destruct (activeScene_reachable 0 _ R) as [_ [E | I]].
  - discriminate E.
  - exact I.
Defined.

(** *** Tool panels *)

(** C8.  The content area shows one view, so at most one tool panel; a click
    on a tool button makes that tool the only one recorded, whichever was
    recorded before.  [handleCloseToolPanel] leaves the chat view, is
    idempotent, and changes nothing in a state where no panel is open. *)
Theorem tool_panel_exclusive (s : Session) :
  (List.length (openPanels (render s)) <= 1)%nat
  /\ (render s = ChatView -> openPanels (render s) = [])
  /\ (forall tool, activeToolPanel (handleToolClick tool s) = Some tool)
  /\ openPanels (render (handleToolClick "scenes" s)) = [ScenesPanel]
  /\ openPanels (render (handleToolClick "audio" s)) = [AudioPanel]
  /\ openPanels (render (handleToolClick "settings" s)) = [SettingsPanel]
  /\ render (handleCloseToolPanel s) = ChatView
  /\ handleCloseToolPanel (handleCloseToolPanel s) = handleCloseToolPanel s
  /\ (activeToolPanel s = None -> handleCloseToolPanel s = s).
Proof.
  repeat split.
  - destruct (render s); cbn; lia.
  - intros ->. reflexivity.
  - intros H. destruct s; cbn in *. now subst.
Qed.

(** A fresh session is in the chat view, with no panel recorded. *)
Lemma tool_panel_exclusive_witness :
  render (initialSession 0) = ChatView
  /\ openPanels (render (initialSession 0)) = []
  /\ handleCloseToolPanel (initialSession 0) = initialSession 0.
Proof.
  destruct (tool_panel_exclusive (initialSession 0))
    as [_ [V [_ [_ [_ [_ [_ [_ C]]]]]]]].
  split; [reflexivity | split; [apply V | apply C]]; reflexivity.
Defined.

(** *** The log under arbitrary events *)

Lemma run_app (es es' : list Event) (s : Session) :
  run (es ++ es') s = run es' (run es s).
Proof. unfold run. apply fold_left_app. Qed.

(** An invariant that holds at the start and is kept by every event holds
    after every run. *)
Lemma run_invariant (P : Session -> Prop) :
  (forall s e, P s -> P (step s e)) ->
  forall es s, P s -> P (run es s).
Proof.
  intros Hstep es. induction es as [|e es IH]; intros s Hs; [exact Hs|].
  apply IH, Hstep, Hs.
Qed.

Lemma step_messages (s : Session) (e : Event) :
  exists suffix, messages (step s e) = messages s ++ suffix.
Proof.
  destruct e; cbn [step]; try (exists []; cbn; now rewrite app_nil_r).
  - unfold handleSendMessage.
    destruct (String.eqb (JS.trim (input s)) "").
    + exists []. now rewrite app_nil_r.
    + eexists. cbn. reflexivity.
  - rewrite elapse_messages. eexists. reflexivity.
Qed.

(** X1.  The log is append-only: whatever events a session goes through,
    from any state, the log it ends with is the log it started with followed
    by new messages; no message is removed, moved or rewritten. *)
Theorem log_append_only (es : list Event) (s : Session) :
  exists suffix, messages (run es s) = messages s ++ suffix.
Proof.
  revert s. induction es as [|e es IH]; intros s.
  - exists []. cbn. now rewrite app_nil_r.
  - destruct (IH (step s e)) as [suf2 H2].
    destruct (step_messages s e) as [suf1 H1].
    exists (suf1 ++ suf2). cbn [run fold_left] in *. unfold run in H2.
    now rewrite H2, H1, app_assoc.
Qed.

Lemma filter_partition_length {A : Type} (f : A -> bool) (l : list A) :
  (List.length (filter f l) + List.length (filter (fun x => negb (f x)) l)
   = List.length l)%nat.
Proof.
  induction l as [|x l IH]; [reflexivity|].
  cbn [filter]. destruct (f x); cbn [negb List.length]; lia.
Qed.

Lemma countAi_app (l l' : list Message) :
  countAi (l ++ l') = (countAi l + countAi l')%nat.
Proof. unfold countAi. now rewrite filter_app, length_app. Qed.

Lemma countUser_app (l l' : list Message) :
  countUser (l ++ l') = (countUser l + countUser l')%nat.
Proof. unfold countUser. now rewrite filter_app, length_app. Qed.

Lemma aiResponse_type (u : string) (ms : list Message) (d : N) :
  type (aiResponse u ms d) = ai.
Proof.
  unfold aiResponse.
  repeat match goal with |- context [if ?b then _ else _] => destruct b end;
    reflexivity.
Qed.

Lemma aiResponse_id (u : string) (ms : list Message) (d : N) :
  id (aiResponse u ms d) = lengthOf ms + 2.
Proof.
  unfold aiResponse.
  repeat match goal with |- context [if ?b then _ else _] => destruct b end;
    reflexivity.
Qed.

Lemma aiResponse_timestamp (u : string) (ms : list Message) (d : N) :
  timestamp (aiResponse u ms d) = d.
Proof.
  unfold aiResponse.
  repeat match goal with |- context [if ?b then _ else _] => destruct b end;
    reflexivity.
Qed.

Lemma replyOf_isAi (n : N) (t : Timer) : isAi (replyOf n t) = true.
Proof. unfold isAi, replyOf. now rewrite aiResponse_type. Qed.

Lemma replyOf_isUser (n : N) (t : Timer) : isUser (replyOf n t) = false.
Proof. unfold isUser, replyOf. now rewrite aiResponse_type. Qed.

Lemma replies_count (n : N) (ts : list Timer) :
  countAi (map (replyOf n) ts) = List.length ts
  /\ countUser (map (replyOf n) ts) = 0%nat.
Proof.
  unfold countAi, countUser.
  induction ts as [|t ts [IHa IHu]]; [split; reflexivity|].
  cbn [map filter]. rewrite replyOf_isAi, replyOf_isUser.
  cbn [List.length]. split; [now rewrite IHa | exact IHu].
Qed.

Lemma step_balanced (s : Session) (e : Event) : balanced s -> balanced (step s e).
Proof.
  unfold balanced. intros H. destruct e; cbn [step]; try exact H.
  - unfold handleSendMessage.
    destruct (String.eqb (JS.trim (input s)) ""); [exact H|].
    cbn [generateAIResponse setTimeout setTimers setInput setMessages messages timers].
    rewrite countAi_app, countUser_app, length_app. cbn. lia.
  - rewrite elapse_messages, elapse_timers, countAi_app, countUser_app.
    destruct (replies_count (now s + dt) (filter (isDue (now s + dt)) (timers s)))
      as [-> ->].
    pose proof (filter_partition_length (isDue (now s + dt)) (timers s)). lia.
Qed.

(** X2.  After any sequence of events on a fresh session, the messages of
    type ai in the log plus the callbacks still pending number one more (the
    greeting) than the messages of type user: every message sent has exactly
    one reply, in the log or still to come, and nothing else adds to the
    log. *)
Theorem replies_accounted (t0 : N) (es : list Event) :
  let s := run es (initialSession t0) in
  (countAi (messages s) + List.length (timers s) = 1 + countUser (messages s))%nat.
Proof.
  cbv zeta. apply (run_invariant balanced); [apply step_balanced | reflexivity].
Qed.

Lemma step_timersWithin (s : Session) (e : Event) :
  timersWithin s -> timersWithin (step s e).
Proof.
  unfold timersWithin. intros H. destruct e; cbn [step]; try exact H.
  - unfold handleSendMessage.
    destruct (String.eqb (JS.trim (input s)) ""); [exact H|].
    cbn [generateAIResponse setTimeout setTimers setInput setMessages timers now].
    apply Forall_app. split; [exact H|]. constructor; [cbn; lia | constructor].
  - rewrite elapse_timers, elapse_now. rewrite Forall_forall in *.
    intros t Ht. apply filter_In in Ht as [Ht Hd]. specialize (H t Ht).
    unfold isDue in Hd. apply negb_true_iff, N.leb_gt in Hd. lia.
Qed.

(** X3.  After any sequence of events on a fresh session every pending reply
    is due within the next 1000 ms; so once 1000 ms pass with nothing sent,
    no reply is pending and the log holds, besides the greeting, exactly as
    many messages of type ai as of type user. *)
Theorem replies_land_within_a_second (t0 : N) (es : list Event) :
  let s := run es (initialSession t0) in
  Forall (fun t => (now s < due t <= now s + 1000)%N) (timers s)
  /\ timers (elapse 1000 s) = []
  /\ (countAi (messages (elapse 1000 s))
      = 1 + countUser (messages (elapse 1000 s)))%nat.
Proof.
  cbv zeta.
  assert (W : timersWithin (run es (initialSession t0)))
    by (apply (run_invariant timersWithin); [apply step_timersWithin | constructor]).
  assert (E : timers (elapse 1000 (run es (initialSession t0))) = []).
  { rewrite elapse_timers. unfold timersWithin in W.
    induction W as [|t ts Ht _ IH]; [reflexivity|].
    cbn [filter]. unfold isDue at 1.
    destruct (N.leb_spec (due t) (now (run es (initialSession t0)) + 1000));
      [exact IH | lia]. }
  split; [exact W | split; [exact E|]].
  assert (B : balanced (elapse 1000 (run es (initialSession t0)))).
  { apply (step_balanced _ (Elapse 1000)).
    apply (run_invariant balanced); [apply step_balanced | reflexivity]. }
  unfold balanced in B. rewrite E in B. cbn [List.length] in B. lia.
Qed.

(** *** Ids when sends do not overlap *)

Lemma upTo_S (n : nat) : upTo (S n) = upTo n ++ [Z.of_nat (S n)].
Proof. unfold upTo. now rewrite seq_S, map_app. Qed.

Lemma nth_error_upTo (n i : nat) (a : Z) :
  nth_error (upTo n) i = Some a -> a = Z.of_nat (S i).
Proof.
  unfold upTo. rewrite nth_error_map. intros H.
  destruct (nth_error (seq 1 n) i) as [k|] eqn:E; [| discriminate].
  injection H as <-.
  rewrite nth_error_seq in E.
  destruct (Nat.ltb_spec i n); [| discriminate]. injection E as <-. reflexivity.
Qed.

Lemma step_numbered (s : Session) (e : Event) :
  match e with Send => idle s | _ => true end = true ->
  numbered s -> numbered (step s e).
Proof.
  unfold numbered, ids. intros He [Hids Ht].
  destruct e; cbn [step]; try (split; assumption).
  - unfold handleSendMessage.
    destruct (String.eqb (JS.trim (input s)) ""); [split; assumption|].
    unfold idle in He. destruct (timers s) eqn:E; [| discriminate].
    cbn [generateAIResponse setTimeout setTimers setInput setMessages
         messages timers now]. rewrite E.
    rewrite map_app, length_app, Hids. cbn [map id List.length app].
    rewrite Nat.add_1_r, upTo_S. unfold lengthOf.
    split; [do 2 f_equal; lia|].
    right. eexists. split; [reflexivity|]. cbn [closure_messages]. lia.
  - rewrite elapse_messages, elapse_timers.
    destruct Ht as [E | [t [E Hc]]]; rewrite E; cbn [filter map].
    + rewrite app_nil_r. split; [assumption | now left].
    + destruct (isDue (now s + dt) t); cbn [negb map].
      * rewrite map_app, length_app, Hids. cbn [map List.length].
        rewrite Nat.add_1_r, upTo_S. unfold replyOf.
        rewrite aiResponse_id. unfold lengthOf.
        split; [do 2 f_equal; lia | now left].
      * rewrite app_nil_r. split; [assumption|].
        right. exists t. split; [reflexivity | assumption].
Qed.

Lemma run_numbered (es : list Event) (s : Session) :
  sendsWhenIdle es s = true -> numbered s -> numbered (run es s).
Proof.
  revert s. induction es as [|e es IH]; intros s H Hs; [exact Hs|].
  cbn [sendsWhenIdle] in H. apply andb_true_iff in H as [He Hes].
  apply (IH (step s e) Hes). now apply step_numbered.
Qed.

(** X4.  In a run on a fresh session in which no message is sent while a
    reply is pending, the ids of the log are 1, 2, ..., n in order, hence
    strictly increasing. *)
Theorem ids_consecutive_when_sends_wait (t0 : N) (es : list Event)
    (H : sendsWhenIdle es (initialSession t0) = true) :
  let s := run es (initialSession t0) in
  ids s = upTo (List.length (messages s)) /\ strictlyIncreasing (ids s).
Proof.
  cbv zeta.
  assert (N : numbered (run es (initialSession t0))).
  { apply run_numbered; [exact H|]. split; [reflexivity | now left]. }
  destruct N as [E _]. split; [exact E|].
  rewrite E. intros i j a b Hij Ha Hb.
  apply nth_error_upTo in Ha, Hb. lia.
Qed.

(** Two exchanges, each reply landing before the next message is sent. *)
Lemma ids_consecutive_when_sends_wait_witness :
  ids (run [Typing "a"; Send; Elapse 1000; Typing "b"; Send; Elapse 1000]
         (initialSession 0)) = [1; 2; 3; 4; 5].
Proof.
  destruct (ids_consecutive_when_sends_wait 0
              [Typing "a"; Send; Elapse 1000; Typing "b"; Send; Elapse 1000])
    as [E _].
  - reflexivity.
  - exact E.
Defined.

(** *** Timestamps *)

Lemma StronglySorted_constant (l : list N) (n : N) :
  Forall (fun y => y = n) l -> StronglySorted N.le l.
Proof.
  induction 1 as [|y l Hy Hl IH]; constructor; [exact IH|].
  subst y. eapply Forall_impl; [| exact Hl]. cbn. intros z ->. lia.
Qed.

Lemma StronglySorted_app_le (l l' : list N) (n : N) :
  StronglySorted N.le l -> Forall (fun x => (x <= n)%N) l ->
  Forall (fun y => y = n) l' -> StronglySorted N.le (l ++ l').
Proof.
  intros Hs Hl Hl'. induction Hs as [|x l Hs IH Hx]; cbn [app].
  - now apply (StronglySorted_constant l' n).
  - inversion Hl as [|? ? Hxn Hl0]; subst.
    constructor; [now apply IH|].
    apply Forall_app. split; [exact Hx|].
    eapply Forall_impl; [| exact Hl']. cbn. intros y ->. exact Hxn.
Qed.

Lemma step_timeOrdered (s : Session) (e : Event) :
  timeOrdered s -> timeOrdered (step s e).
Proof.
  unfold timeOrdered. intros [Hs Hn].
  destruct e; cbn [step]; try (split; assumption).
  - unfold handleSendMessage.
    destruct (String.eqb (JS.trim (input s)) ""); [split; assumption|].
    cbn [generateAIResponse setTimeout setTimers setInput setMessages
         messages timers now].
    split.
    + rewrite map_app. apply (StronglySorted_app_le _ _ (now s)); [exact Hs | |].
      * apply Forall_map. exact Hn.
      * repeat constructor.
    + apply Forall_app. split; [exact Hn|]. repeat constructor. cbn. lia.
  - rewrite elapse_messages, elapse_now. split.
    + rewrite map_app.
      apply (StronglySorted_app_le _ _ (now s + dt)%N); [exact Hs | |].
      * apply Forall_map. eapply Forall_impl; [| exact Hn]. cbn. intros; lia.
      * apply Forall_map, Forall_map, Forall_forall. intros t _.
        unfold replyOf. apply aiResponse_timestamp.
    + apply Forall_app. split.
      * eapply Forall_impl; [| exact Hn]. cbn. intros; lia.
      * apply Forall_map, Forall_forall. intros t _.
        unfold replyOf. rewrite aiResponse_timestamp. lia.
Qed.

(** X5.  After any sequence of events on a fresh session the timestamps of
    the log never decrease from one message to the next, and none is later
    than the current time; this holds also in the runs in which ids
    repeat. *)
Theorem timestamps_never_decrease (t0 : N) (es : list Event) :
  let s := run es (initialSession t0) in
  StronglySorted N.le (map timestamp (messages s))
  /\ Forall (fun m => (timestamp m <= now s)%N) (messages s).
Proof.
  cbv zeta. apply (run_invariant timeOrdered); [apply step_timeOrdered|].
  split; cbn.
  - repeat constructor.
  - constructor; [cbn; lia | constructor].
Qed.

(** *** The keyboard and the send button *)

(** A send that goes through changes the state. *)
Lemma handleSendMessage_changes (s : Session) :
  JS.trim (input s) <> ""%string -> handleSendMessage s <> s.
Proof.
  intros H E. apply (f_equal (fun x => List.length (messages x))) in E.
  rewrite (handleSendMessage_send s H) in E. cbn [messages] in E.
  rewrite length_app in E. cbn in E. lia.
Qed.

(** X6.  A key press changes the session exactly when the key is Enter,
    Shift is not held and the input does not trim to the empty string, and
    then it does what the send button does; the default action of the key
    is prevented exactly when the key is Enter without Shift, whether or not
    anything is sent.  Shift+Enter and every other key leave the session
    alone. *)
Theorem handleKeyDown_spec (e : KeyboardEvent) (s : Session) :
  (fst (handleKeyDown e s) <> s <->
     key e = "Enter"%string /\ shiftKey e = false /\ JS.trim (input s) <> ""%string)
  /\ (fst (handleKeyDown e s) = s \/ fst (handleKeyDown e s) = handleSendMessage s)
  /\ (snd (handleKeyDown e s) = true <->
     key e = "Enter"%string /\ shiftKey e = false).
Proof.
  unfold handleKeyDown.
  destruct (String.eqb_spec (key e) "Enter") as [K|K];
    destruct (shiftKey e); cbn [andb negb fst snd];
    (split; [| split; [auto|]]);
    try (split; [congruence | intros [? ?]; congruence]);
    try (split; [intros H; now contradiction H | intros [? [? ?]]; congruence]).
  - split.
    + intros H. repeat split; try assumption.
      intros T. apply H. unfold handleSendMessage. now rewrite T.
    + intros [_ [_ T]]. now apply handleSendMessage_changes.
  - split; [auto | reflexivity].
Qed.

(** X7.  The send button is disabled exactly when sending would do nothing,
    and that is exactly when the input is empty or consists of white space
    only. *)
Theorem sendDisabled_iff (s : Session) :
  (sendDisabled s = true <-> handleSendMessage s = s)
  /\ (sendDisabled s = true <-> JS.allWhiteSpace (input s) = true).
Proof.
  unfold sendDisabled. split.
  - split.
    + intros H. unfold handleSendMessage. now rewrite H.
    + intros H. destruct (String.eqb_spec (JS.trim (input s)) ""); [reflexivity|].
      now apply handleSendMessage_changes in H.
  - rewrite String.eqb_eq. apply JSFacts.trim_empty.
Qed.

(** *** What a message renders *)

Lemma aiResponse_rendersWell (u : string) (ms : list Message) (d : N) :
  rendersWell (aiResponse u ms d).
Proof.
  unfold rendersWell, aiResponse.
  destruct (JS.includes _ "replace" || _);
    [| destruct (JS.includes _ "script" || _)];
    unfold showsOptionGrid, showsScriptEditor; cbn;
    split; intros H; try discriminate H; repeat split.
Qed.

Lemma step_rendersWell (s : Session) (e : Event) :
  Forall rendersWell (messages s) -> Forall rendersWell (messages (step s e)).
Proof.
  intros H. destruct e; cbn [step]; try exact H.
  - unfold handleSendMessage.
    destruct (String.eqb (JS.trim (input s)) ""); [exact H|].
    cbn [generateAIResponse setTimeout setTimers setInput setMessages messages].
    apply Forall_app. split; [exact H|].
    constructor; [| constructor]. split; cbn; discriminate.
  - rewrite elapse_messages. apply Forall_app. split; [exact H|].
    apply Forall_map, Forall_forall. intros t _. apply aiResponse_rendersWell.
Qed.

(** X8.  After any sequence of events on a fresh session, no message of the
    log is rendered with both an option grid and a script editor; a message
    rendered with either is of type ai, so the messages of the user are
    rendered as text only; the grid always holds the three scene options and
    the editor always starts from the default script. *)
Theorem messages_render_well (t0 : N) (es : list Event) :
  Forall
    (fun m =>
       (showsOptionGrid m = true ->
          showsScriptEditor m = false /\ type m = ai
          /\ options m = Some replaceOptions)
       /\ (showsScriptEditor m = true ->
          type m = ai /\ script m = Some defaultScript))
    (messages (run es (initialSession t0))).
Proof.
  change (Forall rendersWell (messages (run es (initialSession t0)))).
  apply (run_invariant (fun s => Forall rendersWell (messages s)));
    [apply step_rendersWell|].
  constructor; [| constructor]. split; cbn; discriminate.
Qed.

(** *** Thumbnails *)

(** X9.  A click on the thumbnail of a scene of the catalog makes that
    thumbnail, and no other, the active one; in every state at most one
    thumbnail is active; in a fresh session none is. *)
Theorem thumbnail_click_highlights (s : Session) (sc : Scene) (H : In sc scenes) :
  activeThumbnails (handleSceneClick (scene_id sc) s) = [sc]
  /\ (forall s', (List.length (activeThumbnails s') <= 1)%nat)
  /\ (forall t0, activeThumbnails (initialSession t0) = []).
Proof.
  split; [| split].
  - cbn in H. destruct H as [<- | [<- | [<- | []]]]; reflexivity.
  - intros s'. unfold activeThumbnails, thumbnailActive, scenes.
    cbn [filter scene_id].
    destruct (Z.eqb_spec (activeScene s') 1), (Z.eqb_spec (activeScene s') 2),
      (Z.eqb_spec (activeScene s') 3); cbn [List.length]; lia.
  - reflexivity.
Qed.

(** The third thumbnail is clicked. *)
Lemma thumbnail_click_highlights_witness :
  map scene_id (activeThumbnails (handleSceneClick 3 (initialSession 0))) = [3].
Proof.
  destruct (thumbnail_click_highlights (initialSession 0)
              (mkScene 3 "https://via.placeholder.com/120x68/333/fff?text=Scene+3"
                 "0:10-0:14")) as [E _].
  - cbn. auto.
  - cbn [scene_id] in E. rewrite E. reflexivity.
Defined.

(** *** The reply under surrounding text *)

Lemma aiResponse_showsOptionGrid (u : string) (ms : list Message) (d : N) :
  showsOptionGrid (aiResponse u ms d)
  = JS.includes (JS.toLowerCase u) "replace"
    || JS.includes (JS.toLowerCase u) "change scene".
Proof.
  unfold aiResponse.
  destruct (JS.includes _ "replace" || _);
    [| destruct (JS.includes _ "script" || _)]; reflexivity.
Qed.

Lemma aiResponse_showsScriptEditor (u : string) (ms : list Message) (d : N) :
  showsScriptEditor (aiResponse u ms d)
  = negb (JS.includes (JS.toLowerCase u) "replace"
          || JS.includes (JS.toLowerCase u) "change scene")
    && (JS.includes (JS.toLowerCase u) "script"
        || JS.includes (JS.toLowerCase u) "text").
Proof.
  unfold aiResponse.
  destruct (JS.includes _ "replace" || _);
    [| destruct (JS.includes _ "script" || _)]; reflexivity.
Qed.

Lemma includes_lower_context (pre u post kw : string) :
  JS.includes (JS.toLowerCase u) kw = true ->
  JS.includes (JS.toLowerCase (pre ++ u ++ post)%string) kw = true.
Proof.
  rewrite !JSFacts.toLowerCase_app. apply JSFacts.includes_context.
Qed.

(** X10.  Text placed before and after a request never demotes it: when the
    reply to a text carries the scene options, so does the reply to any text
    that contains it; when it carries the script, the reply to any text that
    contains it carries the script or the scene options. *)
Theorem reply_kept_under_context (pre u post : string)
    (ms ms' : list Message) (d d' : N) :
  (showsOptionGrid (aiResponse u ms d) = true ->
     showsOptionGrid (aiResponse (pre ++ u ++ post)%string ms' d') = true)
  /\ (showsScriptEditor (aiResponse u ms d) = true ->
     showsOptionGrid (aiResponse (pre ++ u ++ post)%string ms' d') = true
     \/ showsScriptEditor (aiResponse (pre ++ u ++ post)%string ms' d') = true).
Proof.
  rewrite !aiResponse_showsOptionGrid, !aiResponse_showsScriptEditor. split.
  - rewrite !orb_true_iff.
    intros [H | H]; [left | right]; now apply includes_lower_context.
  - rewrite andb_true_iff. intros [_ H].
    destruct (JS.includes (JS.toLowerCase (pre ++ u ++ post)%string) "replace"
              || JS.includes (JS.toLowerCase (pre ++ u ++ post)%string) "change scene");
      [now left | right]. cbn [negb andb].
    apply orb_true_iff in H. apply orb_true_iff.
    destruct H as [H | H]; [left | right]; now apply includes_lower_context.
Qed.

(** A request for a scene change, and the same request inside a sentence. *)
Lemma reply_kept_under_context_witness :
  showsOptionGrid (aiResponse "Could you CHANGE SCENE two, please?" [] 0) = true.
Proof.
  destruct (reply_kept_under_context "Could you " "CHANGE SCENE" " two, please?"
              [] [] 0 0) as [H _].
  apply H. reflexivity.
Defined.

(** *** The view *)

Lemma elapse_activeToolPanel (dt : N) (s : Session) :
  activeToolPanel (elapse dt s) = activeToolPanel s.
Proof. unfold elapse. now rewrite runTimers_eq. Qed.

Lemma handleSendMessage_activeToolPanel (s : Session) :
  activeToolPanel (handleSendMessage s) = activeToolPanel s.
Proof.
  unfold handleSendMessage. now destruct (String.eqb (JS.trim (input s)) "").
Qed.

(** X11.  In every state a session reaches through its interface the
    recorded tool is none or one of scenes, audio and settings, so the
    content area shows the chat view or one of the three panels: the default
    branch of [getToolPanel], which renders nothing, is never taken. *)
Theorem render_reachable (t0 : N) (s : Session) (H : reachable t0 s) :
  (activeToolPanel s = None
   \/ activeToolPanel s = Some "scenes"%string
   \/ activeToolPanel s = Some "audio"%string
   \/ activeToolPanel s = Some "settings"%string)
  /\ render s <> NullView.
Proof.
  assert (A : activeToolPanel s = None
              \/ activeToolPanel s = Some "scenes"%string
              \/ activeToolPanel s = Some "audio"%string
              \/ activeToolPanel s = Some "settings"%string).
  { induction H as [|s e Hs IH He]; [now left|].
    destruct e; cbn [step];
      rewrite ?elapse_activeToolPanel, ?handleSendMessage_activeToolPanel;
      try exact IH.
    - cbn [offered] in He. destruct (render s); try discriminate.
      cbn [existsb] in He. cbn [handleToolClick setActiveToolPanel activeToolPanel].
      destruct (String.eqb_spec tool "scenes") as [->|]; [auto|].
      destruct (String.eqb_spec tool "audio") as [->|]; [auto|].
      destruct (String.eqb_spec tool "settings") as [->|]; [auto 6|].
      discriminate.
    - now left. }
  split; [exact A|].
  unfold render.
  destruct A as [-> | [-> | [-> | ->]]]; discriminate.
Qed.

(** The audio panel is opened in a fresh session. *)
Lemma render_reachable_witness :
  reachable 0 (step (initialSession 0) (ToolClick "audio"))
  /\ render (step (initialSession 0) (ToolClick "audio")) <> NullView.
Proof.
  assert (R : reachable 0 (step (initialSession 0) (ToolClick "audio")))
    by (apply reach_step; [apply reach_init | reflexivity]).
  split; [exact R|].
  destruct (render_reachable 0 _ R) as [_ V]. exact V.
Defined.

(** X12.  Opening or closing a tool panel, selecting a scene and typing
    each commute with the passing of time: the replies that are pending land
    in the log at the same time and with the same content whether the click
    or keystroke comes before or after. *)
Theorem elapse_commutes_with_clicks (dt : N) (s : Session) :
  (forall tool, elapse dt (handleToolClick tool s) = handleToolClick tool (elapse dt s))
  /\ elapse dt (handleCloseToolPanel s) = handleCloseToolPanel (elapse dt s)
  /\ (forall sceneId,
        elapse dt (handleSceneClick sceneId s) = handleSceneClick sceneId (elapse dt s))
  /\ (forall text, elapse dt (setInput text s) = setInput text (elapse dt s)).
Proof.
  unfold elapse. repeat split; intros; rewrite !runTimers_eq; reflexivity.
Qed.

End ChatEditorProps.

(** ** The audio panel *)

Module AudioPanelProps.
Import AudioPanel.

Open Scope list_scope.

Lemma isPlaying_true (s : Panel) (x : string) :
  isPlaying s x = true <-> playing s = Some x.
Proof.
  unfold isPlaying. destruct (playing s) as [y|].
  - rewrite String.eqb_eq. split; congruence.
  - split; discriminate.
Qed.

Lemma isPlaying_false (s : Panel) (x : string) :
  isPlaying s x = false <-> playing s <> Some x.
Proof.
  rewrite <- isPlaying_true. destruct (isPlaying s x); split; congruence.
Qed.

(** Callbacks only ever clear the flag. *)
Lemma panel_runTimers_eq (ts : list N) (s : Panel) :
  runTimers ts s = match ts with [] => s | _ => setPlaying None s end.
Proof.
  revert s; induction ts as [|d ts IH]; intros s; [reflexivity|].
  cbn [runTimers]. rewrite IH. destruct ts; reflexivity.
Qed.

Lemma elapse_playing (dt : N) (s : Panel) :
  playing (elapse dt s) =
  match filter (fun d => (d <=? now s + dt)%N) (timers s) with
  | [] => playing s
  | _ => None
  end.
Proof.
  unfold elapse. rewrite panel_runTimers_eq.
  destruct (filter (fun d => (d <=? now s + dt)%N) (timers s)); reflexivity.
Qed.

Lemma filter_eqb_NoDup (y : string) (l : list string) :
  NoDup l -> (List.length (filter (String.eqb y) l) <= 1)%nat.
Proof.
  induction 1 as [|x l Hx Hl IH]; cbn [filter List.length]; [lia|].
  destruct (String.eqb_spec y x) as [->|]; [| exact IH].
  replace (filter (String.eqb x) l) with (@nil string); [cbn; lia|].
  symmetry. clear IH Hl. induction l as [|z l IH]; [reflexivity|].
  cbn [filter]. destruct (String.eqb_spec x z) as [->|].
  - exfalso. apply Hx. now left.
  - apply IH. intros H. apply Hx. now right.
Qed.

Lemma previewIds_NoDup : NoDup previewIds.
Proof.
  unfold previewIds; cbn.
  repeat (constructor; [cbn; intuition discriminate|]). constructor.
Qed.

(** *** One preview at a time *)

(** C7.  While preview [a] is playing, starting any other preview [b], voice
    or track, makes [b] the playing one and [a] no longer playing; and in
    every state at most one preview of the panel shows as playing. *)
Theorem play_other_stops_current (s : Panel) (a b : string)
    (Ha : playing s = Some a) (Hab : a <> b) :
  playing (handlePlayVoice b s) = Some b
  /\ playing (handlePlayMusic b s) = Some b
  /\ isPlaying (handlePlayVoice b s) a = false
  /\ isPlaying (handlePlayMusic b s) a = false
  /\ forall s', (List.length (playingPreviews s') <= 1)%nat.
Proof.
  assert (E : isPlaying s b = false) by (apply isPlaying_false; congruence).
  unfold handlePlayVoice, handlePlayMusic. rewrite E.
  repeat split.
  - apply isPlaying_false. cbn. congruence.
  - apply isPlaying_false. cbn. congruence.
  - intros s'. unfold playingPreviews, isPlaying.
    destruct (playing s') as [y|].
    + apply filter_eqb_NoDup, previewIds_NoDup.
    + induction previewIds; cbn in *; lia.
Qed.

(** Voice v1 is playing and track m1 is started. *)
Lemma play_other_stops_current_witness :
  let s := handlePlayVoice "v1" (initialPanel 0) in
  playing s = Some "v1"%string
  /\ playing (handlePlayMusic "m1" s) = Some "m1"%string
  /\ isPlaying (handlePlayMusic "m1" s) "v1" = false.
Proof.
  cbv zeta.
  destruct (play_other_stops_current
              (handlePlayVoice "v1" (initialPanel 0)) "v1" "m1")
    as [_ [M [_ [P _]]]].
  - reflexivity.
  - discriminate.
  - split; [reflexivity | split; [exact M | exact P]].
Defined.

(** *** The play button is a toggle *)

(** C10.  Play on the preview that is playing clears the flag, starts no
    other preview and schedules nothing; play on any other id makes that id
    the playing one. *)
Theorem play_is_toggle (s : Panel) (x : string) :
  (playing s = Some x ->
     playing (handlePlayVoice x s) = None
     /\ timers (handlePlayVoice x s) = timers s
     /\ playing (handlePlayMusic x s) = None
     /\ timers (handlePlayMusic x s) = timers s)
  /\ (playing s <> Some x ->
     playing (handlePlayVoice x s) = Some x
     /\ playing (handlePlayMusic x s) = Some x).
Proof.
  unfold handlePlayVoice, handlePlayMusic. split; intros H.
  - apply isPlaying_true in H. rewrite H. repeat split.
  - apply isPlaying_false in H. rewrite H. repeat split.
Qed.

(** Voice v2 is started in a fresh panel and its button is pressed again. *)
Lemma play_is_toggle_witness :
  playing (handlePlayVoice "v2" (initialPanel 0)) = Some "v2"%string
  /\ playing (handlePlayVoice "v2" (handlePlayVoice "v2" (initialPanel 0))) = None.
Proof.
  split.
  - destruct (play_is_toggle (initialPanel 0) "v2") as [_ H].
    apply H. discriminate.
  - destruct (play_is_toggle (handlePlayVoice "v2" (initialPanel 0)) "v2") as [H _].
    apply H. reflexivity.
Defined.

(** *** Automatic reset *)

(** A voice preview that is started sets the flag and queues one callback,
    due 3000 ms later. *)
Lemma handlePlayVoice_start (s : Panel) (v : string) :
  playing s <> Some v ->
  playing (handlePlayVoice v s) = Some v
  /\ timers (handlePlayVoice v s) = timers s ++ [(now s + 3000)%N].
Proof.
  intros H. apply isPlaying_false in H.
  unfold handlePlayVoice. rewrite H. split; reflexivity.
Qed.

(** 3000 ms after a voice preview was started, nothing plays. *)
Lemma voice_auto_reset (s : Panel) (v : string) (dt : N) :
  playing s <> Some v -> (3000 <= dt)%N ->
  playing (elapse dt (handlePlayVoice v s)) = None.
Proof.
  intros H Hdt. apply isPlaying_false in H.
  rewrite elapse_playing. unfold handlePlayVoice. rewrite H.
  cbn [timers now setTimeout setTimers setPlaying].
  rewrite filter_app. cbn [filter].
  destruct (N.leb_spec (now s + 3000) (now s + dt)); [| lia].
  destruct (filter _ (timers s)); reflexivity.
Qed.

(** [handlePlayMusic] schedules nothing. *)
Lemma handlePlayMusic_timers (s : Panel) (t : string) :
  timers (handlePlayMusic t s) = timers s.
Proof. unfold handlePlayMusic. destruct (isPlaying s t); reflexivity. Qed.

(** With no callback pending, a track that is started plays for ever. *)
Lemma music_persists_without_timers (s : Panel) (t : string) (dt : N) :
  timers s = [] -> playing s <> Some t ->
  playing (elapse dt (handlePlayMusic t s)) = Some t.
Proof.
  intros Ht H. apply isPlaying_false in H.
  rewrite elapse_playing, handlePlayMusic_timers, Ht.
  unfold handlePlayMusic. rewrite H. reflexivity.
Qed.

(** C9.  A voice preview is started, and one second later a track: the
    callback of the voice preview is still pending, and when it runs, two
    seconds later, it clears the flag the track had set.  The track preview
    is reset with no action of the user. *)
Theorem music_reset_by_pending_voice_timer :
  let started := run [PlayVoice "v1"; Elapse 1000; PlayMusic "m1"] (initialPanel 0) in
  playing started = Some "m1"%string
  /\ timers started = [3000%N]
  /\ playing (elapse 1999 started) = Some "m1"%string
  /\ playing (elapse 2000 started) = None.
Proof. cbv zeta. repeat split. Qed.

(** *** How long a preview plays *)

Lemma panel_run_invariant (P : Panel -> Prop) :
  (forall s e, P s -> P (step s e)) ->
  forall es s, P s -> P (run es s).
Proof.
  intros Hstep es. induction es as [|e es IH]; intros s Hs; [exact Hs|].
  apply IH, Hstep, Hs.
Qed.

Lemma elapse_panel_timers (dt : N) (s : Panel) :
  timers (elapse dt s) = filter (fun d => negb (d <=? now s + dt)%N) (timers s).
Proof.
  unfold elapse. rewrite panel_runTimers_eq.
  destruct (filter (fun d => (d <=? now s + dt)%N) (timers s)); reflexivity.
Qed.

Lemma elapse_panel_now (dt : N) (s : Panel) : now (elapse dt s) = (now s + dt)%N.
Proof.
  unfold elapse. rewrite panel_runTimers_eq.
  destruct (filter (fun d => (d <=? now s + dt)%N) (timers s)); reflexivity.
Qed.

Lemma elapse_activeTab (dt : N) (s : Panel) : activeTab (elapse dt s) = activeTab s.
Proof.
  unfold elapse. rewrite panel_runTimers_eq.
  destruct (filter (fun d => (d <=? now s + dt)%N) (timers s)); reflexivity.
Qed.

Lemma elapse_playing_due (dt : N) (s : Panel) :
  playing (elapse dt s) = if timerDueWithin dt s then None else playing s.
Proof.
  rewrite elapse_playing. unfold timerDueWithin.
  induction (timers s) as [|d ts IH]; [reflexivity|].
  cbn [filter existsb]. destruct (d <=? now s + dt)%N; [reflexivity | exact IH].
Qed.

(** X13.  A preview that is started plays until the first callback that is
    pending falls due, and not longer: a track plays for as long as no
    callback of an earlier voice preview is due, for ever when none is
    pending; a voice preview plays for as long as no earlier callback is due
    and less than 3000 ms have passed. *)
Theorem preview_plays_until_timer (s : Panel) (x : string) (dt : N)
    (H : playing s <> Some x) :
  playing (elapse dt (handlePlayMusic x s))
  = (if timerDueWithin dt s then None else Some x)
  /\ playing (elapse dt (handlePlayVoice x s))
     = (if timerDueWithin dt s || (3000 <=? dt)%N then None else Some x).
Proof.
  apply isPlaying_false in H. rewrite !elapse_playing_due.
  unfold handlePlayMusic, handlePlayVoice, timerDueWithin. rewrite H.
  cbn [timers now playing setPlaying setTimeout setTimers]. split; [reflexivity|].
  rewrite existsb_app. cbn [existsb]. rewrite orb_false_r.
  replace (now s + 3000 <=? now s + dt)%N with (3000 <=? dt)%N; [reflexivity|].
  destruct (N.leb_spec 3000 dt), (N.leb_spec (now s + 3000) (now s + dt));
    (reflexivity || lia).
Qed.

(** In a fresh panel a track still plays after an hour, and a voice preview
    plays for 2999 ms and has stopped after 3000 ms. *)
Lemma preview_plays_until_timer_witness :
  playing (elapse 3600000 (handlePlayMusic "m2" (initialPanel 0))) = Some "m2"%string
  /\ playing (elapse 2999 (handlePlayVoice "v3" (initialPanel 0))) = Some "v3"%string
  /\ playing (elapse 3000 (handlePlayVoice "v3" (initialPanel 0))) = None.
Proof.
  split; [| split].
  - destruct (preview_plays_until_timer (initialPanel 0) "m2" 3600000) as [E _];
      [discriminate | exact E].
  - destruct (preview_plays_until_timer (initialPanel 0) "v3" 2999) as [_ E];
      [discriminate | exact E].
  - destruct (preview_plays_until_timer (initialPanel 0) "v3" 3000) as [_ E];
      [discriminate | exact E].
Defined.

Lemma step_panel_timersWithin (s : Panel) (e : Event) :
  timersWithin s -> timersWithin (step s e).
Proof.
  unfold timersWithin. intros H. destruct e; cbn [step]; try exact H.
  - unfold handlePlayVoice. destruct (isPlaying s voiceId); [exact H|].
    cbn [timers now setPlaying setTimeout setTimers].
    apply Forall_app. split; [exact H|]. constructor; [lia | constructor].
  - unfold handlePlayMusic. destruct (isPlaying s trackId); exact H.
  - rewrite elapse_panel_timers, elapse_panel_now. rewrite Forall_forall in *.
    intros d Hd. apply filter_In in Hd as [Hd Hn]. specialize (H d Hd).
    apply negb_true_iff, N.leb_gt in Hn. lia.
Qed.

(** X14.  After any sequence of events on a fresh panel every pending
    callback is due within the next 3000 ms.  So once 3000 ms pass with no
    event, no callback is pending, and from then on the passing of time
    alone changes nothing about what plays.  Time alone never starts a
    preview: after it, the same preview plays or none. *)
Theorem panel_settles_in_three_seconds (t0 : N) (es : list Event) :
  let s := run es (initialPanel t0) in
  Forall (fun d => (now s < d <= now s + 3000)%N) (timers s)
  /\ timers (elapse 3000 s) = []
  /\ (forall dt, playing (elapse dt (elapse 3000 s)) = playing (elapse 3000 s))
  /\ (forall dt, playing (elapse dt s) = playing s \/ playing (elapse dt s) = None).
Proof.
  cbv zeta.
  assert (W : timersWithin (run es (initialPanel t0)))
    by (apply (panel_run_invariant timersWithin);
        [apply step_panel_timersWithin | constructor]).
  assert (E : timers (elapse 3000 (run es (initialPanel t0))) = []).
  { rewrite elapse_panel_timers. unfold timersWithin in W.
    induction W as [|d ts Hd _ IH]; [reflexivity|].
    cbn [filter].
    destruct (N.leb_spec d (now (run es (initialPanel t0)) + 3000));
      [exact IH | lia]. }
  split; [exact W | split; [exact E | split]].
  - intros dt. rewrite elapse_playing_due. unfold timerDueWithin.
    now rewrite E.
  - intros dt. rewrite elapse_playing_due.
    destruct (timerDueWithin dt (run es (initialPanel t0))); auto.
Qed.

(** *** The states the interface reaches *)

Lemma existsb_eqb_In (x : string) (l : list string) :
  existsb (String.eqb x) l = true -> In x l.
Proof.
  rewrite existsb_exists. intros [y [Hy E]]. apply String.eqb_eq in E. now subst.
Qed.

Lemma step_wellFormed (s : Panel) (e : Event) :
  offered s e = true -> wellFormed s -> wellFormed (step s e).
Proof.
  unfold wellFormed. intros He [Ht Hp]. destruct e; cbn [step offered] in *.
  - split; [| exact Hp]. cbn [setActiveTab activeTab].
    apply existsb_eqb_In in He. cbn in He. intuition.
  - apply andb_true_iff in He as [_ He]. apply existsb_eqb_In in He.
    unfold handlePlayVoice. destruct (isPlaying s voiceId);
      cbn [playing activeTab setPlaying setTimeout setTimers].
    + split; [exact Ht | now left].
    + split; [exact Ht|]. right. exists voiceId. split; [reflexivity|].
      unfold previewIds. apply in_or_app. now left.
  - apply andb_true_iff in He as [_ He]. apply existsb_eqb_In in He.
    unfold handlePlayMusic. destruct (isPlaying s trackId);
      cbn [playing activeTab setPlaying].
    + split; [exact Ht | now left].
    + split; [exact Ht|]. right. exists trackId. split; [reflexivity|].
      unfold previewIds. apply in_or_app. now right.
  - split; assumption.
  - rewrite elapse_activeTab, elapse_playing_due. split; [exact Ht|].
    destruct (timerDueWithin dt s); [now left | exact Hp].
Qed.

(** X15.  In every state the panel reaches through its interface the active
    tab is voice or music, so the content of exactly one of the two tabs is
    rendered, and what plays is nothing or one of the eleven previews of the
    panel. *)
Theorem panel_reachable_wellFormed (t0 : N) (s : Panel) (H : reachable t0 s) :
  (activeTab s = "voice"%string \/ activeTab s = "music"%string)
  /\ xorb (showsVoiceTab s) (showsMusicTab s) = true
  /\ (playing s = None \/ exists x, playing s = Some x /\ In x previewIds).
Proof.
  assert (W : wellFormed s).
  { induction H as [|s e Hs IH He].
    - split; [now left | now left].
    - now apply step_wellFormed. }
  destruct W as [Ht Hp]. split; [exact Ht | split; [| exact Hp]].
  unfold showsVoiceTab, showsMusicTab. destruct Ht as [-> | ->]; reflexivity.
Qed.

(** The music tab is selected and a track is started. *)
Lemma panel_reachable_wellFormed_witness :
  let s := run [SelectTab "music"; PlayMusic "m4"] (initialPanel 0) in
  reachable 0 s
  /\ xorb (showsVoiceTab s) (showsMusicTab s) = true
  /\ (playing s = None \/ exists x, playing s = Some x /\ In x previewIds).
Proof.
  cbv zeta.
  assert (R : reachable 0 (run [SelectTab "music"; PlayMusic "m4"] (initialPanel 0))).
  { cbn [run fold_left].
    apply reach_step; [apply reach_step; [apply reach_init | reflexivity] | reflexivity]. }
  split; [exact R|].
  destruct (panel_reachable_wellFormed 0 _ R) as [_ [X P]].
  split; [exact X | exact P].
Defined.

(** *** The script *)

Lemma elapse_script (dt : N) (s : Panel) : script (elapse dt s) = script s.
Proof.
  unfold elapse. rewrite panel_runTimers_eq.
  destruct (filter (fun d => (d <=? now s + dt)%N) (timers s)); reflexivity.
Qed.

(** X16.  The script of the panel changes through the script area only:
    after any sequence of events, from any state, it is the last text typed
    there, and the script the run started with when nothing was typed; no
    tab switch, play button or timer alters it. *)
Theorem script_is_last_typed (es : list Event) (s : Panel) :
  script (run es s) = lastScript es (script s).
Proof.
  revert s. induction es as [|e es IH]; intros s; [reflexivity|].
  cbn [run fold_left]. fold (run es (step s e)). rewrite IH.
  destruct e; cbn [step lastScript]; try reflexivity.
  - unfold handlePlayVoice. destruct (isPlaying s voiceId); reflexivity.
  - unfold handlePlayMusic. destruct (isPlaying s trackId); reflexivity.
  - now rewrite elapse_script.
Qed.

End AudioPanelProps.
